(** * SocketLogger: a shallow embedding of [src/SocketLogger.js]

    The logger is an event-driven object.  Its fields ([status],
    [messageQueue], [_params]) are mutated by the public methods and by the
    three callbacks that [_init] registers on the socket.  The embedding keeps
    those fields in a record, threads the record through a small state and
    exception monad, and records every call that leaves the object (calls on
    the socket, deferred notifications) in an ordered log of effects.
    Pending [setTimeout] callbacks are part of the state, each with the delay
    that remains before it fires. *)

From Stdlib Require Import List String Bool ZArith NArith Lia.
Import ListNotations.
Local Open Scope string_scope.
Local Open Scope list_scope.

Set Implicit Arguments.
Set Warnings "-register-all".

(** ** JavaScript values *)

(** The values that travel through the logger: wire messages, log
    arguments, socket options. *)
Inductive JsVal : Type :=
| VUndefined
| VNull
| VBool (b : bool)
| VNum (n : Z)
| VStr (s : string)
| VArr (items : list JsVal)
| VObj (fields : list (string * JsVal)).

Inductive JsError : Type :=
| TypeError.

(** Field lookup in an object given as a list of bindings. *)
Fixpoint lookup_field (k : string) (fields : list (string * JsVal)) : JsVal :=
  match fields with
  | [] => VUndefined
  | (k', v) :: rest => if String.eqb k' k then v else lookup_field k rest
  end.

(** [obj.k = v]: overwrite the binding of [k], or add one at the end. *)
Fixpoint set_field (k : string) (v : JsVal) (fields : list (string * JsVal))
  : list (string * JsVal) :=
  match fields with
  | [] => [(k, v)]
  | (k', v') :: rest =>
      if String.eqb k' k then (k, v) :: rest else (k', v') :: set_field k v rest
  end.

(** [v.k] for the two keys the logger reads, [msg] and [id]: reading a
    property of [undefined] or [null] throws, a primitive or an array has no
    such property, an object answers with its binding. *)
Definition read_prop (v : JsVal) (k : string) : JsError + JsVal :=
  match v with
  | VUndefined | VNull => inl TypeError
  | VObj fields => inr (lookup_field k fields)
  | _ => inr VUndefined
  end.

(** [v === 'literal'] as the [switch] of the message handler tests it. *)
Definition strict_eq_str (v : JsVal) (lit : string) : bool :=
  match v with
  | VStr s => String.eqb s lit
  | _ => false
  end.

(** ** Constants of the module *)

Definition s_RECONNECT_INTERVAL : N := 5000.
Definition s_STR_EVENT_CONNECTED : string := "socketlogger:connected".
Definition s_STR_EVENT_DISCONNECTED : string := "socketlogger:disconnected".

(** ** The queue of [typhonjs-core-socket] *)

Module Queue.
Section WithConsumer.
Variables A S : Type.

Definition t : Type := list A.

(** Modelled from the spec: the class [Queue], which the logger imports
    from [typhonjs-core-socket/src/core/Queue.js]; the "Outgoing Queue" of
    section 4.1, an ordered buffer.  A new queue holds nothing. *)
Definition new : t := [].

(** Modelled from the spec: [enqueue(message)] of section 4.1, the
    method [push] of the imported [Queue]; it appends to the tail. *)
Definition push (q : t) (element : A) : t := q ++ [element].

(** Modelled from the spec: [clear()] of section 4.1, the method [empty]
    of the imported [Queue]; it discards all buffered messages. *)
Definition empty (q : t) : t := [].

(** Modelled from the spec: [flush()] of section 4.1, the method
    [process] of the imported [Queue].  It goes from head to tail and
    asks the consumer about each message; a message the consumer accepts
    is removed, the first refusal stops the iteration.  The consumer acts
    on a state of type [S] (the object that owns the queue). *)
Fixpoint process (consumer : A -> S -> bool * S) (q : t) (s : S) : t * S :=
  match q with
  | [] => ([], s)
  | message :: rest =>
      let (ack, s') := consumer message s in
      if ack then process consumer rest s' else (q, s')
  end.
End WithConsumer.
End Queue.

(** ** State of a logger *)

(** The one callback the logger ever hands to [setTimeout]:
    [this.socket.connect.bind(this.socket)]. *)
Inductive Callback : Type :=
| SocketConnectBound.

(** A pending one-shot timer with the milliseconds left before it fires. *)
Record Timer : Type := mkTimer {
  remaining : N;
  callback : Callback
}.

(** Calls that leave the object, in the order they are made. *)
Inductive Effect : Type :=
| SocketConnect
| SocketDisconnect (args : list JsVal)
| SocketSend (message : JsVal)
| TriggerDefer (event : string) (payload : JsVal).

Record Params : Type := mkParams {
  autoConnect : bool;
  autoReconnect : bool;
  host : string;
  socketOptions : list (string * JsVal)
}.

Record State : Type := mkState {
  status : string;
  messageQueue : Queue.t JsVal;
  _params : Params;
  timers : list Timer;
  effects : list Effect
}.

Definition with_status (v : string) (s : State) : State :=
  mkState v (messageQueue s) (_params s) (timers s) (effects s).

Definition with_messageQueue (q : Queue.t JsVal) (s : State) : State :=
  mkState (status s) q (_params s) (timers s) (effects s).

Definition with_timers (ts : list Timer) (s : State) : State :=
  mkState (status s) (messageQueue s) (_params s) ts (effects s).

Definition emit (e : Effect) (s : State) : State :=
  mkState (status s) (messageQueue s) (_params s) (timers s) (effects s ++ [e]).

(** ** The monad of methods and callbacks *)

(** A method either returns or throws; the fields keep whatever was
    written before the throw. *)
Inductive Outcome (A : Type) : Type :=
| Ret (a : A)
| Throw (e : JsError).
Arguments Ret {A} a.
Arguments Throw {A} e.

Definition M (A : Type) : Type := State -> Outcome A * State.

Definition ret {A} (a : A) : M A := fun s => (Ret a, s).

Definition bind {A B} (m : M A) (k : A -> M B) : M B :=
  fun s =>
    match m s with
    | (Ret a, s') => k a s'
    | (Throw e, s') => (Throw e, s')
    end.

Declare Scope js_scope.
Delimit Scope js_scope with js.
Notation "x <- m ;; k" := (bind m (fun x => k))
  (at level 61, m at next level, right associativity) : js_scope.
Notation "m ;; k" := (bind m (fun _ => k))
  (at level 61, right associativity) : js_scope.
Local Open Scope js_scope.

Definition modify (f : State -> State) : M unit := fun s => (Ret tt, f s).
Definition gets {A} (f : State -> A) : M A := fun s => (Ret (f s), s).
Definition throw {A} (e : JsError) : M A := fun s => (Throw e, s).

Definition prop (v : JsVal) (k : string) : M JsVal :=
  match read_prop v k with
  | inl e => throw e
  | inr x => ret x
  end.

(** Final state of a computation, whatever its outcome. *)
Definition exec {A} (m : M A) (s : State) : State := snd (m s).

(** *** The socket, the notifier and the timers *)

Definition socket_connect : M unit := modify (emit SocketConnect).
Definition socket_disconnect (args : list JsVal) : M unit :=
  modify (emit (SocketDisconnect args)).
Definition socket_send (message : JsVal) : M unit :=
  modify (emit (SocketSend message)).
Definition triggerDefer (event : string) (payload : JsVal) : M unit :=
  modify (emit (TriggerDefer event payload)).
Definition setTimeout (cb : Callback) (delay : N) : M unit :=
  modify (fun s => with_timers (timers s ++ [mkTimer delay cb]) s).

(** The getter [socketOptions]. *)
Definition get_socketOptions : M JsVal :=
  gets (fun s => VObj (socketOptions (_params s))).

(** *** The queue field *)

(** The consumer given to [new Queue(...)] in the constructor. *)
Definition consumer (message : JsVal) (s : State) : bool * State :=
  if String.eqb (status s) "connected"
  then (true, emit (SocketSend message) s)
  else (false, s).

Definition messageQueue_push (element : JsVal) : M unit :=
  modify (fun s => with_messageQueue (Queue.push (messageQueue s) element) s).

Definition messageQueue_empty : M unit :=
  modify (fun s => with_messageQueue (Queue.empty (messageQueue s)) s).

Definition messageQueue_process : M unit :=
  fun s =>
    let (q', s') := Queue.process consumer (messageQueue s) s in
    (Ret tt, with_messageQueue q' s').

(** ** The class *)

Module SocketLogger.

(** A parameter with a default value: the default stands in for an
    argument that is left out. *)
Definition or_default {A} (default : A) (argument : option A) : A :=
  match argument with
  | Some a => a
  | None => default
  end.

(** [constructor(host, ssl = false, serializer = JSON, autoConnect = true,
    autoReconnect = true)].  The platform's [setSocketOptions] and the
    global [JSON] are taken as arguments, with the type of serializers. *)
Definition constructor {Ser : Type}
    (setSocketOptions : string -> bool -> Ser -> list (string * JsVal))
    (JSON : Ser)
    (host : string) (ssl : option bool) (serializer : option Ser)
    (autoConnect autoReconnect : option bool) : State :=
  let ssl := or_default false ssl in
  let serializer := or_default JSON serializer in
  let autoConnect := or_default true autoConnect in
  let autoReconnect := or_default true autoReconnect in
  let options := set_field "protocol" (VStr "socketlogger")
                   (setSocketOptions host ssl serializer) in
  let this := mkState "disconnected" (Queue.new JsVal)
                (mkParams autoConnect autoReconnect host options) [] [] in
  exec (if autoConnect then socket_connect else ret tt) this.

Definition connect : M unit := socket_connect.

Definition log_message (type : string) (arguments : list JsVal) : JsVal :=
  VObj [("msg", VStr "log"); ("type", VStr type); ("data", VArr arguments)].

Definition debug (arguments : list JsVal) : M unit :=
  messageQueue_push (log_message "debug" arguments).

Definition disconnect (arguments : list JsVal) : M unit :=
  socket_disconnect arguments ;;
  modify (with_status "disconnected") ;;
  messageQueue_empty ;;
  options <- get_socketOptions ;;
  triggerDefer s_STR_EVENT_DISCONNECTED options.

Definition error (arguments : list JsVal) : M unit :=
  messageQueue_push (log_message "error" arguments).

Definition fatal (arguments : list JsVal) : M unit :=
  messageQueue_push (log_message "fatal" arguments).

Definition info (arguments : list JsVal) : M unit :=
  messageQueue_push (log_message "info" arguments).

Definition trace (arguments : list JsVal) : M unit :=
  messageQueue_push (log_message "trace" arguments).

Definition warn (arguments : list JsVal) : M unit :=
  messageQueue_push (log_message "warn" arguments).

(** The callbacks of [_init]. *)

Definition on_socket_open : M unit :=
  socket_send (VObj [("msg", VStr "connect")]).

Definition on_socket_close : M unit :=
  modify (with_status "disconnected") ;;
  messageQueue_empty ;;
  options <- get_socketOptions ;;
  triggerDefer s_STR_EVENT_DISCONNECTED options ;;
  reconnect <- gets (fun s => autoReconnect (_params s)) ;;
  if reconnect
  then setTimeout SocketConnectBound s_RECONNECT_INTERVAL
  else ret tt.

Definition on_socket_message_in (message : JsVal) : M unit :=
  msg <- prop message "msg" ;;
  if strict_eq_str msg "connected" then
    modify (with_status "connected") ;;
    messageQueue_process ;;
    options <- get_socketOptions ;;
    triggerDefer s_STR_EVENT_CONNECTED options
  else if strict_eq_str msg "ping" then
    id <- prop message "id" ;;
    socket_send (VObj [("msg", VStr "pong"); ("id", id)])
  else
    ret tt.

End SocketLogger.

(** ** The environment: timers and events *)

(** What a timer's callback does when it fires. *)
Definition fire (cb : Callback) : M unit :=
  match cb with
  | SocketConnectBound => socket_connect
  end.

Fixpoint fire_all (cbs : list Callback) : M unit :=
  match cbs with
  | [] => ret tt
  | cb :: rest => fire cb ;; fire_all rest
  end.

Definition due (dt : N) (t : Timer) : bool := (remaining t <=? dt)%N.
Definition pending (dt : N) (t : Timer) : bool := negb (due dt t).
Definition age (dt : N) (t : Timer) : Timer :=
  mkTimer (remaining t - dt) (callback t).

(** [dt] milliseconds pass: the timers whose delay has run out are removed
    and their callbacks run, oldest first; the others have [dt] less to
    wait. *)
Definition elapse (dt : N) : M unit :=
  ts <- gets timers ;;
  modify (with_timers (map (age dt) (filter (pending dt) ts))) ;;
  fire_all (map callback (filter (due dt) ts)).

Inductive Level : Type :=
| Trace | Debug | Info | Warn | Error | Fatal.

Definition level_name (l : Level) : string :=
  match l with
  | Trace => "trace"
  | Debug => "debug"
  | Info => "info"
  | Warn => "warn"
  | Error => "error"
  | Fatal => "fatal"
  end.

(** The logging method of a level. *)
Definition log (l : Level) : list JsVal -> M unit :=
  match l with
  | Trace => SocketLogger.trace
  | Debug => SocketLogger.debug
  | Info => SocketLogger.info
  | Warn => SocketLogger.warn
  | Error => SocketLogger.error
  | Fatal => SocketLogger.fatal
  end.

(** What can happen to a logger: a call of a public method by its owner, an
    event of the socket, or the passing of time. *)
Inductive Event : Type :=
| CallConnect
| CallDisconnect (args : list JsVal)
| CallLog (l : Level) (args : list JsVal)
| SocketOpen
| SocketClose
| SocketMessageIn (message : JsVal)
| Elapse (dt : N).

Definition dispatch (ev : Event) : M unit :=
  match ev with
  | CallConnect => SocketLogger.connect
  | CallDisconnect args => SocketLogger.disconnect args
  | CallLog l args => log l args
  | SocketOpen => SocketLogger.on_socket_open
  | SocketClose => SocketLogger.on_socket_close
  | SocketMessageIn message => SocketLogger.on_socket_message_in message
  | Elapse dt => elapse dt
  end.

(** A history of events.  An exception leaves through the caller of the
    method or callback; the object lives on with its fields as they are. *)
Fixpoint run (evs : list Event) (s : State) : State :=
  match evs with
  | [] => s
  | ev :: rest => run rest (exec (dispatch ev) s)
  end.

(** *** Observations on the log of effects *)

Definition is_connect (e : Effect) : bool :=
  match e with
  | SocketConnect => true
  | _ => false
  end.

(** Number of [socket.connect()] calls made so far. *)
Definition connect_calls (s : State) : nat :=
  List.length (filter is_connect (effects s)).

Definition is_explicit_connect (ev : Event) : bool :=
  match ev with
  | CallConnect => true
  | _ => false
  end.

Definition is_close (ev : Event) : bool :=
  match ev with
  | SocketClose => true
  | _ => false
  end.

(** The state [s] after the messages [ms] went out on the socket. *)
Definition sent (ms : list JsVal) (s : State) : State :=
  mkState (status s) (messageQueue s) (_params s) (timers s)
          (effects s ++ map SocketSend ms).

(** A consumer that follows a predicate and keeps the accepted messages, in
    the order it accepted them. *)
Definition transmit {A} (canSend : A -> bool) (message : A) (out : list A)
  : bool * list A :=
  if canSend message then (true, out ++ [message]) else (false, out).

(** The queue after a sequence of [push] calls on a new queue. *)
Definition enqueue_all {A} (ms : list A) : Queue.t A :=
  fold_left (@Queue.push A) ms (Queue.new A).

(** *** Histories after a manual disconnect *)

Definition no_explicit_connect (evs : list Event) : bool :=
  forallb (fun ev => negb (is_explicit_connect ev)) evs.

Definition no_close (evs : list Event) : bool :=
  forallb (fun ev => negb (is_close ev)) evs.

(** "After a manual disconnect, and without a new explicit connect, the
    socket is never asked to connect": whatever the state in which
    [disconnect] is called and whatever happens afterwards short of a call
    of [connect], the number of [socket.connect()] calls stays what it was
    when [disconnect] returned. *)
Definition manual_disconnect_is_final : Prop :=
  forall (s : State) (args : list JsVal) (evs : list Event),
    no_explicit_connect evs = true ->
    connect_calls (run evs (exec (SocketLogger.disconnect args) s))
    = connect_calls (exec (SocketLogger.disconnect args) s).

(** A step that schedules and fires nothing: same timers, same parameters,
    same number of connect calls. *)
Definition quiet (s s' : State) : Prop :=
  timers s' = timers s
  /\ _params s' = _params s
  /\ connect_calls s' = connect_calls s.

(** *** A logger to run *)

(** A stand-in for the platform's [setSocketOptions]. *)
Definition sample_setSocketOptions (host : string) (ssl : bool)
    (serializer : unit) : list (string * JsVal) :=
  [("host", VStr host); ("ssl", VBool ssl)].

(** [new SocketLogger('localhost:8001')] with the defaults of the
    constructor. *)
Definition sample_logger : State :=
  SocketLogger.constructor sample_setSocketOptions tt "localhost:8001"
    None None None None.

(** The same logger once the handshake is done. *)
Definition sample_connected : State :=
  run [SocketOpen; SocketMessageIn (VObj [("msg", VStr "connected")])]
      sample_logger.

(** *** The getters and further observations *)

(** The getter [host]. *)
Definition get_host : M string :=
  gets (fun s => host (_params s)).

(** The value a caller of the getter [socketOptions] reads under a key. *)
Definition option_of (k : string) (s : State) : JsVal :=
  lookup_field k (socketOptions (_params s)).

(** An argument of the constructor that asks for no connection: only an
    explicit [false] does. *)
Definition connects_on_construction (autoConnect : option bool) : bool :=
  SocketLogger.or_default true autoConnect.

(** The status is one of the two strings the class ever writes. *)
Definition known_status (s : State) : bool :=
  String.eqb (status s) "connected" || String.eqb (status s) "disconnected".

(** The event is a message whose [msg] is ['connected']. *)
Definition is_ack (ev : Event) : bool :=
  match ev with
  | SocketMessageIn message =>
      match read_prop message "msg" with
      | inr msg => strict_eq_str msg "connected"
      | inl _ => false
      end
  | _ => false
  end.

Definition is_elapse (ev : Event) : bool :=
  match ev with
  | Elapse _ => true
  | _ => false
  end.

Definition no_ack (evs : list Event) : bool :=
  forallb (fun ev => negb (is_ack ev)) evs.

Definition no_elapse (evs : list Event) : bool :=
  forallb (fun ev => negb (is_elapse ev)) evs.

(** Number of calls of the method [connect] in a history. *)
Definition explicit_connects (evs : list Event) : nat :=
  List.length (filter is_explicit_connect evs).

(** The three kinds of messages of the protocol that a client sends. *)
Definition is_client_message (message : JsVal) : bool :=
  match message with
  | VObj fields =>
      let msg := lookup_field "msg" fields in
      strict_eq_str msg "connect" || strict_eq_str msg "pong"
      || strict_eq_str msg "log"
  | _ => false
  end.

Definition is_log_record (message : JsVal) : bool :=
  match message with
  | VObj fields => strict_eq_str (lookup_field "msg" fields) "log"
  | _ => false
  end.

(** An effect that is not a send, or sends a message of the protocol. *)
Definition sends_protocol_only (e : Effect) : bool :=
  match e with
  | SocketSend message => is_client_message message
  | _ => true
  end.

Definition is_send (e : Effect) : bool :=
  match e with
  | SocketSend _ => true
  | _ => false
  end.

Definition is_notification (event : string) (e : Effect) : bool :=
  match e with
  | TriggerDefer event' _ => String.eqb event' event
  | _ => false
  end.

(** The status as a two-state machine driven by the events: a 'connected'
    message connects, [disconnect] and a close of the socket disconnect,
    nothing else counts. *)
Definition next_status (st : string) (ev : Event) : string :=
  if is_ack ev then "connected"
  else match ev with
       | CallDisconnect _ | SocketClose => "disconnected"
       | _ => st
       end.

(** The timer that the close callback schedules. *)
Definition reconnect_timer : Timer :=
  mkTimer s_RECONNECT_INTERVAL SocketConnectBound.

(** The 'connected' message of the server. *)
Definition ack : JsVal := VObj [("msg", VStr "connected")].

(** A call of a logging method: the level and the arguments. *)
Definition LogCall : Type := (Level * list JsVal)%type.

Definition call_event (c : LogCall) : Event := CallLog (fst c) (snd c).

(** The record that a logging call puts in the queue. *)
Definition record_of (c : LogCall) : JsVal :=
  SocketLogger.log_message (level_name (fst c)) (snd c).

(** * Properties *)

(** ** The queue *)

Section QueueFacts.
Variable A : Type.

Lemma fold_push (ms q : list A) :
  fold_left (@Queue.push A) ms q = q ++ ms.
Proof.
  revert q; induction ms as [|m ms IH]; intro q; simpl.
  - now rewrite app_nil_r.
  - rewrite IH. unfold Queue.push. now rewrite <- app_assoc.
Qed.

Lemma enqueue_all_order (ms : list A) : enqueue_all ms = ms.
Proof. unfold enqueue_all. now rewrite fold_push. Qed.

(** [process] with a predicate splits the queue at the first message
    the predicate refuses. *)
Lemma process_transmit (canSend : A -> bool) (q out : list A) :
  exists accepted rest,
    Queue.process (transmit canSend) q out = (rest, out ++ accepted)
    /\ q = accepted ++ rest
    /\ forallb canSend accepted = true
    /\ match rest with
       | [] => True
       | refused :: _ => canSend refused = false
       end.
Proof.
  revert out; induction q as [|m q IH]; intro out.
  - exists [], []. simpl. now rewrite app_nil_r.
  - simpl. unfold transmit at 1. destruct (canSend m) eqn:Hm.
    + destruct (IH (out ++ [m])) as (acc & rest & Hp & Hq & Hall & Hrest).
      exists (m :: acc), rest. rewrite Hp, <- app_assoc. simpl.
      rewrite Hm, Hall, Hq. auto.
    + exists [], (m :: q). simpl. now rewrite app_nil_r.
Qed.
End QueueFacts.

(** The consumer of the logger looks at [status] only: a connected logger
    sends the whole queue, in order; any other leaves it as it is. *)
Lemma process_consumer (q : list JsVal) (s : State) :
  Queue.process consumer q s =
  if String.eqb (status s) "connected" then ([], sent q s) else (q, s).
Proof.
  revert s; induction q as [|m q IH]; intro s.
  - simpl. destruct s as [st mq p ts fx]; unfold sent; simpl.
    rewrite app_nil_r. now destruct (String.eqb st "connected").
  - simpl. unfold consumer at 1.
    destruct (String.eqb (status s) "connected") eqn:Hs; [|reflexivity].
    rewrite IH. simpl. rewrite Hs. unfold sent, emit; simpl.
    now rewrite <- app_assoc.
Qed.

Lemma with_messageQueue_same (s : State) :
  with_messageQueue (messageQueue s) s = s.
Proof. now destruct s. Qed.

Lemma messageQueue_process_connected (s : State) :
  status s = "connected" ->
  messageQueue_process s
  = (Ret tt, with_messageQueue [] (sent (messageQueue s) s)).
Proof.
  intro Hs. unfold messageQueue_process.
  rewrite process_consumer, Hs. reflexivity.
Qed.

Lemma messageQueue_process_not_connected (s : State) :
  status s <> "connected" ->
  messageQueue_process s = (Ret tt, s).
Proof.
  intro Hs. unfold messageQueue_process. rewrite process_consumer.
  destruct (String.eqb_spec (status s) "connected") as [E|_]; [contradiction|].
  now rewrite with_messageQueue_same.
Qed.

(** C2: after any sequence of enqueue calls the queue holds the messages in
    the order of the calls; flush goes from head to tail, takes out and
    sends each message the predicate accepts and stops at the first it
    refuses, which stays queued with all that follow, in their order.  With
    the logger's own consumer and status 'connected' every message is
    accepted: all are sent in the order they were enqueued and the queue is
    empty afterwards; with any other status nothing is sent and nothing is
    removed. *)
Theorem flush_fifo (canSend : JsVal -> bool) (ms : list JsVal) :
  let q := enqueue_all ms in
  q = ms
  /\ (exists accepted rest,
        Queue.process (transmit canSend) q [] = (rest, accepted)
        /\ ms = accepted ++ rest
        /\ forallb canSend accepted = true
        /\ match rest with
           | [] => True
           | refused :: _ => canSend refused = false
           end)
  /\ (forall s, status s = "connected" -> messageQueue s = q ->
        messageQueue_process s = (Ret tt, with_messageQueue [] (sent ms s)))
  /\ (forall s, status s <> "connected" -> messageQueue s = q ->
        messageQueue_process s = (Ret tt, s)).
Proof.
  intro q. assert (Hq : q = ms) by apply enqueue_all_order.
  rewrite Hq. repeat split.
  - destruct (process_transmit canSend ms []) as (acc & rest & H).
    exists acc, rest. exact H.
  - intros s Hs Hm. rewrite messageQueue_process_connected by exact Hs.
    now rewrite Hm.
  - intros s Hs _. now apply messageQueue_process_not_connected.
Qed.

(** ** The callbacks of the socket *)

(** C3: whatever the status and the queue, after the socket's close event
    the callback has returned, the queue is empty, the status is
    'disconnected', and one deferred 'socketlogger:disconnected'
    notification carrying the socket options has been added to the
    effects. *)
Theorem closed_clears_and_notifies (s : State) :
  let s' := exec SocketLogger.on_socket_close s in
  fst (SocketLogger.on_socket_close s) = Ret tt
  /\ messageQueue s' = []
  /\ status s' = "disconnected"
  /\ effects s' =
     effects s ++ [TriggerDefer s_STR_EVENT_DISCONNECTED
                     (VObj (socketOptions (_params s)))].
Proof.
  unfold exec, SocketLogger.on_socket_close, bind, modify, gets,
    messageQueue_empty, get_socketOptions, triggerDefer, setTimeout, ret.
  simpl. destruct (autoReconnect (_params s)); simpl; auto.
Qed.

(** C7: on the socket's open event the handshake message
    [{msg: 'connect'}] goes straight to the socket, whatever the status, and
    nothing else changes: status (so 'disconnected' stays 'disconnected'),
    queue, parameters and timers are as before. *)
Theorem opened_sends_handshake (s : State) :
  let s' := exec SocketLogger.on_socket_open s in
  SocketLogger.on_socket_open s
  = (Ret tt, emit (SocketSend (VObj [("msg", VStr "connect")])) s)
  /\ effects s' = effects s ++ [SocketSend (VObj [("msg", VStr "connect")])]
  /\ status s' = status s
  /\ messageQueue s' = messageQueue s
  /\ _params s' = _params s
  /\ timers s' = timers s
  /\ (status s = "disconnected" -> status s' = "disconnected").
Proof.
  unfold exec, SocketLogger.on_socket_open, socket_send, modify. simpl.
  repeat split; auto.
Qed.

(** What the message callback does with a message whose [msg] is
    ['connected']. *)
Lemma on_connected (s : State) (message : JsVal) :
  read_prop message "msg" = inr (VStr "connected") ->
  SocketLogger.on_socket_message_in message s
  = (Ret tt,
     mkState "connected" [] (_params s) (timers s)
       (effects s ++ map SocketSend (messageQueue s)
          ++ [TriggerDefer s_STR_EVENT_CONNECTED
                (VObj (socketOptions (_params s)))])).
Proof.
  intro Hmsg.
  unfold SocketLogger.on_socket_message_in, bind, prop. rewrite Hmsg.
  unfold ret at 1. cbn [strict_eq_str String.eqb Ascii.eqb Bool.eqb].
  unfold modify at 1.
  rewrite messageQueue_process_connected by reflexivity.
  unfold get_socketOptions, gets, triggerDefer, modify, emit, sent,
    with_messageQueue, with_status. simpl.
  now rewrite <- app_assoc.
Qed.

(** What the message callback does with a message whose [msg] is
    ['ping']. *)
Lemma on_ping (s : State) (message id : JsVal) :
  read_prop message "msg" = inr (VStr "ping") ->
  read_prop message "id" = inr id ->
  SocketLogger.on_socket_message_in message s
  = (Ret tt, emit (SocketSend (VObj [("msg", VStr "pong"); ("id", id)])) s).
Proof.
  intros Hmsg Hid.
  unfold SocketLogger.on_socket_message_in, bind, prop. rewrite Hmsg, Hid.
  reflexivity.
Qed.

(** What the message callback does with any other message. *)
Lemma on_other (s : State) (message msg : JsVal) :
  read_prop message "msg" = inr msg ->
  strict_eq_str msg "connected" = false ->
  strict_eq_str msg "ping" = false ->
  SocketLogger.on_socket_message_in message s = (Ret tt, s).
Proof.
  intros Hmsg Hc Hp.
  unfold SocketLogger.on_socket_message_in, bind, prop. rewrite Hmsg.
  unfold ret at 1. now rewrite Hc, Hp.
Qed.

(** A message that is [undefined] or [null] makes the callback throw
    before it has written anything. *)
Lemma on_no_object (s : State) (message : JsVal) (e : JsError) :
  read_prop message "msg" = inl e ->
  SocketLogger.on_socket_message_in message s = (Throw e, s).
Proof.
  intro Hmsg.
  unfold SocketLogger.on_socket_message_in, bind, prop. now rewrite Hmsg.
Qed.

(** C5: when a message with discriminator 'connected' arrives at a logger
    whose status is 'disconnected', the callback returns with the status
    'connected', the queue empty, every message that was queued handed to
    the socket in queue order, and after them one deferred
    'socketlogger:connected' notification carrying the socket options. *)
Theorem connected_ack_flushes (s : State) (message : JsVal) :
  status s = "disconnected" ->
  read_prop message "msg" = inr (VStr "connected") ->
  let s' := exec (SocketLogger.on_socket_message_in message) s in
  fst (SocketLogger.on_socket_message_in message s) = Ret tt
  /\ status s' = "connected"
  /\ messageQueue s' = []
  /\ effects s' =
     effects s ++ map SocketSend (messageQueue s)
       ++ [TriggerDefer s_STR_EVENT_CONNECTED
             (VObj (socketOptions (_params s)))].
Proof.
  intros _ Hmsg. unfold exec. rewrite (on_connected s _ Hmsg). simpl. auto.
Qed.

(** C6: a message [{msg: 'ping', id: x}] arriving at a connected logger
    makes the callback send exactly one message, [{msg: 'pong', id: x}], on
    the socket; the status stays 'connected', the queue is unchanged, and
    the callback does the same whatever the queue holds. *)
Theorem ping_answered_with_pong (s : State) (message x : JsVal) :
  status s = "connected" ->
  read_prop message "msg" = inr (VStr "ping") ->
  read_prop message "id" = inr x ->
  let pong := VObj [("msg", VStr "pong"); ("id", x)] in
  let s' := exec (SocketLogger.on_socket_message_in message) s in
  SocketLogger.on_socket_message_in message s = (Ret tt, emit (SocketSend pong) s)
  /\ effects s' = effects s ++ [SocketSend pong]
  /\ status s' = "connected"
  /\ messageQueue s' = messageQueue s
  /\ (forall q, exec (SocketLogger.on_socket_message_in message)
                  (with_messageQueue q s)
                = with_messageQueue q s').
Proof.
  intros Hs Hmsg Hid pong s'. subst s'. unfold exec.
  rewrite (on_ping s _ Hmsg Hid). simpl. repeat split; auto.
  intro q. now rewrite (on_ping _ _ Hmsg Hid).
Qed.

(** C10: the reply to a ping does not depend on the status: for every
    state, 'disconnected' included, a message [{msg: 'ping', id: x}] makes
    the callback send [{msg: 'pong', id: x}] on the socket and leave the
    status as it was. *)
Theorem ping_reply_unguarded (s : State) (message x : JsVal) :
  read_prop message "msg" = inr (VStr "ping") ->
  read_prop message "id" = inr x ->
  let s' := exec (SocketLogger.on_socket_message_in message) s in
  fst (SocketLogger.on_socket_message_in message s) = Ret tt
  /\ effects s' = effects s ++ [SocketSend (VObj [("msg", VStr "pong"); ("id", x)])]
  /\ status s' = status s.
Proof.
  intros Hmsg Hid. unfold exec. rewrite (on_ping s _ Hmsg Hid). simpl. auto.
Qed.

(** C9: a message whose [msg] is neither 'connected' nor 'ping' is
    ignored: the callback returns without throwing and the state (status,
    queue, timers, effects) is exactly the state before. *)
Theorem unknown_message_ignored (s : State) (message msg : JsVal) :
  read_prop message "msg" = inr msg ->
  strict_eq_str msg "connected" = false ->
  strict_eq_str msg "ping" = false ->
  SocketLogger.on_socket_message_in message s = (Ret tt, s).
Proof. apply on_other. Qed.

(** ** The logging methods *)

Lemma log_pushes (l : Level) (args : list JsVal) (s : State) :
  log l args s
  = (Ret tt,
     with_messageQueue
       (messageQueue s ++ [SocketLogger.log_message (level_name l) args]) s).
Proof. now destruct l. Qed.

(** C8: each of trace, debug, info, warn, error and fatal, called with the
    arguments [args], appends to the queue the message with [msg] 'log',
    [type] the name of the level and [data] the arguments in order, and
    touches nothing else.  In the scenario (construction with autoConnect,
    open event, [info("x")], then the 'connected' message) the call of
    [info] leaves the status 'disconnected' and the record queued, and the
    effects at the end are: the connect call of the constructor, the
    handshake, the record [{msg: "log", type: "info", data: ["x"]}], and the
    deferred 'socketlogger:connected' notification. *)
Theorem log_enqueues_record (l : Level) (args : list JsVal) (s : State) :
  log l args s
  = (Ret tt,
     with_messageQueue
       (messageQueue s
          ++ [VObj [("msg", VStr "log"); ("type", VStr (level_name l));
                    ("data", VArr args)]]) s)
  /\ (forall (Ser : Type)
        (setSocketOptions : string -> bool -> Ser -> list (string * JsVal))
        (JSON : Ser) (host : string) (ssl : option bool)
        (serializer : option Ser) (reconnect : option bool),
        let record := VObj [("msg", VStr "log"); ("type", VStr "info");
                            ("data", VArr [VStr "x"])] in
        let s0 := SocketLogger.constructor setSocketOptions JSON host ssl
                    serializer (Some true) reconnect in
        let s1 := run [SocketOpen; CallLog Info [VStr "x"]] s0 in
        let s2 := run [SocketMessageIn (VObj [("msg", VStr "connected")])] s1 in
        status s1 = "disconnected"
        /\ messageQueue s1 = [record]
        /\ status s2 = "connected"
        /\ messageQueue s2 = []
        /\ effects s2 =
           [SocketConnect;
            SocketSend (VObj [("msg", VStr "connect")]);
            SocketSend record;
            TriggerDefer s_STR_EVENT_CONNECTED
              (VObj (socketOptions (_params s0)))]).
Proof.
  split.
  - apply log_pushes.
  - intros. repeat split.
Qed.

(** ** Timers *)

Lemma fire_all_connects (cbs : list Callback) (s : State) :
  fire_all cbs s
  = (Ret tt,
     mkState (status s) (messageQueue s) (_params s) (timers s)
       (effects s ++ repeat SocketConnect (List.length cbs))).
Proof.
  revert s; induction cbs as [|cb cbs IH]; intro s.
  - simpl. unfold ret. destruct s; simpl. now rewrite app_nil_r.
  - destruct cb. cbn [fire_all fire]. unfold bind, socket_connect, modify.
    rewrite IH. unfold emit; simpl. now rewrite <- app_assoc.
Qed.

(** The state after [dt] milliseconds, in closed form. *)
Lemma elapse_state (dt : N) (s : State) :
  elapse dt s
  = (Ret tt,
     mkState (status s) (messageQueue s) (_params s)
       (map (age dt) (filter (pending dt) (timers s)))
       (effects s
          ++ repeat SocketConnect (List.length (filter (due dt) (timers s))))).
Proof.
  unfold elapse, bind, gets, modify. rewrite fire_all_connects.
  now rewrite length_map.
Qed.

(** Time passing in two steps or in one makes no difference. *)
Lemma pending_add (a b : N) (ts : list Timer) :
  map (age b) (filter (pending b) (map (age a) (filter (pending a) ts)))
  = map (age (a + b)) (filter (pending (a + b)) ts).
Proof.
  induction ts as [|t ts IH]; [reflexivity|].
  unfold pending, due in *. cbn [filter].
  destruct (N.leb_spec (remaining t) a) as [Ha|Ha];
    destruct (N.leb_spec (remaining t) (a + b)) as [Hab|Hab];
    cbn [negb map filter age remaining]; try lia; try exact IH.
  - destruct (N.leb_spec (remaining t - a) b); [|lia]. exact IH.
  - destruct (N.leb_spec (remaining t - a) b); [lia|].
    cbn [negb map]. rewrite IH. unfold age at 1 2 4.
    cbn [remaining callback]. do 2 f_equal. lia.
Qed.

Lemma due_add (a b : N) (ts : list Timer) :
  (List.length (filter (due a) ts)
   + List.length (filter (due b) (map (age a) (filter (pending a) ts))))%nat
  = List.length (filter (due (a + b)) ts).
Proof.
  induction ts as [|t ts IH]; [reflexivity|].
  unfold pending, due in *. cbn [filter].
  destruct (N.leb_spec (remaining t) a) as [Ha|Ha];
    destruct (N.leb_spec (remaining t) (a + b)) as [Hab|Hab];
    cbn [negb map filter age remaining List.length]; try lia.
  - destruct (N.leb_spec (remaining t - a) b); [|lia].
    cbn [List.length]. lia.
  - destruct (N.leb_spec (remaining t - a) b); [lia|]. exact IH.
Qed.

Lemma elapse_add (a b : N) (s : State) :
  exec (elapse b) (exec (elapse a) s) = exec (elapse (a + b)) s.
Proof.
  unfold exec. rewrite !elapse_state.
  cbn [snd status messageQueue _params timers effects].
  now rewrite pending_add, <- app_assoc, <- repeat_app, due_add.
Qed.

(** The close callback, in closed form. *)
Lemma on_close_state (s : State) :
  SocketLogger.on_socket_close s
  = (Ret tt,
     mkState "disconnected" [] (_params s)
       (timers s ++ if autoReconnect (_params s)
                    then [mkTimer s_RECONNECT_INTERVAL SocketConnectBound]
                    else [])
       (effects s ++ [TriggerDefer s_STR_EVENT_DISCONNECTED
                        (VObj (socketOptions (_params s)))])).
Proof.
  unfold SocketLogger.on_socket_close, bind, modify, gets,
    messageQueue_empty, get_socketOptions, triggerDefer, setTimeout, ret.
  simpl. destruct (autoReconnect (_params s)); simpl; [reflexivity|].
  now rewrite app_nil_r.
Qed.

Lemma connect_calls_app (fx : list Effect) (n : nat) :
  List.length (filter is_connect (fx ++ repeat SocketConnect n))
  = (List.length (filter is_connect fx) + n)%nat.
Proof.
  rewrite filter_app, length_app. f_equal.
  induction n as [|n IH]; simpl; congruence.
Qed.

(** C4: a close event at a logger with autoReconnect schedules exactly one
    timer, for [socket.connect], with a delay of 5000 ms, whatever the
    state (so after every such close, with the same delay).  Before 5000 ms
    have passed the timer is still pending, with what is left of its delay,
    and the only connect calls are those of timers scheduled before the
    close; once 5000 ms have passed it has made exactly one connect call
    more and is gone.  With no timer pending before the close: no connect
    call before 5000 ms, exactly one at 5000 ms, and no timer left. *)
Theorem reconnect_after_fixed_interval (s : State) :
  autoReconnect (_params s) = true ->
  let s' := exec SocketLogger.on_socket_close s in
  let earlier dt := List.length (filter (due dt) (timers s)) in
  s_RECONNECT_INTERVAL = 5000%N
  /\ timers s' = timers s ++ [mkTimer 5000 SocketConnectBound]
  /\ (forall dt, (dt < 5000)%N ->
        effects (exec (elapse dt) s')
        = effects s' ++ repeat SocketConnect (earlier dt)
        /\ timers (exec (elapse dt) s')
           = timers (exec (elapse dt) s)
               ++ [mkTimer (5000 - dt) SocketConnectBound])
  /\ (forall dt, (5000 <= dt)%N ->
        effects (exec (elapse dt) s')
        = effects s' ++ repeat SocketConnect (earlier dt) ++ [SocketConnect]
        /\ timers (exec (elapse dt) s') = timers (exec (elapse dt) s))
  /\ (timers s = [] ->
        (forall dt, (dt < 5000)%N ->
           connect_calls (exec (elapse dt) s') = connect_calls s')
        /\ connect_calls (exec (elapse 5000) s') = S (connect_calls s')
        /\ timers (exec (elapse 5000) s') = []).
Proof.
  intros Hauto s' earlier. subst s' earlier. unfold exec.
  rewrite on_close_state, Hauto. cbn [snd timers effects].
  split; [reflexivity|]. split; [reflexivity|].
  split; [|split].
  - intros dt Hdt. rewrite !elapse_state.
    cbn [snd status messageQueue _params timers effects].
    rewrite !filter_app, map_app, length_app. cbn [filter]. unfold pending.
    change (due dt (mkTimer s_RECONNECT_INTERVAL SocketConnectBound))
      with (5000 <=? dt)%N.
    destruct (N.leb_spec 5000 dt); [lia|].
    cbn [negb map List.length]. now rewrite Nat.add_0_r.
  - intros dt Hdt. rewrite !elapse_state.
    cbn [snd status messageQueue _params timers effects].
    rewrite !filter_app, map_app, length_app. cbn [filter]. unfold pending.
    change (due dt (mkTimer s_RECONNECT_INTERVAL SocketConnectBound))
      with (5000 <=? dt)%N.
    destruct (N.leb_spec 5000 dt); [|lia].
    cbn [negb map List.length]. rewrite app_nil_r, repeat_app.
    split; reflexivity.
  - intro Hts. rewrite Hts. cbn [app]. split; [|split].
    + intros dt Hdt. unfold connect_calls. rewrite elapse_state.
      cbn [snd status messageQueue _params timers effects filter].
      change (due dt (mkTimer s_RECONNECT_INTERVAL SocketConnectBound))
        with (5000 <=? dt)%N.
      destruct (N.leb_spec 5000 dt); [lia|].
      cbn [List.length repeat]. now rewrite app_nil_r.
    + unfold connect_calls. rewrite elapse_state.
      cbn [snd status messageQueue _params timers effects].
      rewrite connect_calls_app. cbn. lia.
    + rewrite elapse_state. reflexivity.
Qed.

(** ** Manual disconnect *)

(** [disconnect], in closed form. *)
Lemma disconnect_state (s : State) (args : list JsVal) :
  SocketLogger.disconnect args s
  = (Ret tt,
     mkState "disconnected" [] (_params s) (timers s)
       (effects s ++ [SocketDisconnect args;
                      TriggerDefer s_STR_EVENT_DISCONNECTED
                        (VObj (socketOptions (_params s)))])).
Proof.
  unfold SocketLogger.disconnect, bind, socket_disconnect,
    messageQueue_empty, get_socketOptions, gets, triggerDefer, modify, emit.
  simpl. now rewrite <- app_assoc.
Qed.

Lemma strict_eq_str_true (v : JsVal) (lit : string) :
  strict_eq_str v lit = true -> v = VStr lit.
Proof.
  destruct v; simpl; try discriminate.
  intro H. apply String.eqb_eq in H. now subst.
Qed.

Lemma no_connect_in_sends (ms : list JsVal) :
  filter is_connect (map SocketSend ms) = [].
Proof. induction ms as [|m ms IH]; simpl; auto. Qed.

Lemma quiet_refl (s : State) : quiet s s.
Proof. repeat split. Qed.

(** A step whose new effects are written out and hold no connect call. *)
Ltac quiet_by_effects :=
  unfold quiet, connect_calls, emit;
  cbn [snd timers _params effects];
  repeat split;
  rewrite ?filter_app, ?no_connect_in_sends; simpl;
  rewrite ?app_nil_r; reflexivity.

(** No message makes the message callback schedule a timer or ask the
    socket to connect. *)
Lemma message_in_quiet (message : JsVal) (s : State) :
  quiet s (exec (SocketLogger.on_socket_message_in message) s).
Proof.
  unfold exec.
  destruct (read_prop message "msg") as [e|msg] eqn:Hmsg.
  - rewrite (on_no_object s _ Hmsg). apply quiet_refl.
  - destruct (strict_eq_str msg "connected") eqn:Hc.
    + apply strict_eq_str_true in Hc. subst msg.
      rewrite (on_connected s _ Hmsg). quiet_by_effects.
    + destruct (strict_eq_str msg "ping") eqn:Hp.
      * apply strict_eq_str_true in Hp. subst msg.
        assert (Hid : exists id, read_prop message "id" = inr id).
        { destruct message; simpl in Hmsg; try discriminate;
            eexists; reflexivity. }
        destruct Hid as [id Hid]. rewrite (on_ping s _ Hmsg Hid).
        quiet_by_effects.
      * rewrite (on_other s _ Hmsg Hc Hp). apply quiet_refl.
Qed.

(** With no timer pending, the only events after which a timer is pending
    or a connect call has been made are a call of [connect] and, with
    autoReconnect, a close of the socket. *)
Lemma dispatch_quiet (ev : Event) (s : State) :
  timers s = [] ->
  is_explicit_connect ev = false ->
  autoReconnect (_params s) = false \/ is_close ev = false ->
  quiet s (exec (dispatch ev) s).
Proof.
  intros Hts Hc Hclose. destruct ev; cbn [dispatch]; try discriminate.
  - unfold exec. rewrite disconnect_state. quiet_by_effects.
  - unfold exec. rewrite log_pushes. repeat split.
  - unfold exec, SocketLogger.on_socket_open, socket_send, modify.
    quiet_by_effects.
  - destruct Hclose as [Hauto|Hcl]; [|discriminate].
    unfold exec. rewrite on_close_state, Hauto. quiet_by_effects.
  - apply message_in_quiet.
  - unfold exec. rewrite elapse_state.
    unfold quiet, connect_calls. cbn [snd timers _params effects].
    rewrite Hts. simpl. rewrite app_nil_r. auto.
Qed.

Lemma run_quiet (evs : list Event) (s : State) :
  timers s = [] ->
  no_explicit_connect evs = true ->
  autoReconnect (_params s) = false \/ no_close evs = true ->
  quiet s (run evs s).
Proof.
  revert s; induction evs as [|ev evs IH]; intros s Hts Hc Hclose.
  - apply quiet_refl.
  - cbn [run]. unfold no_explicit_connect, no_close in *.
    cbn [forallb] in Hc, Hclose.
    apply andb_true_iff in Hc. destruct Hc as [Hev Hevs].
    apply negb_true_iff in Hev.
    assert (Hstep : quiet s (exec (dispatch ev) s)).
    { apply dispatch_quiet; auto.
      destruct Hclose as [H|H]; [now left|right].
      apply andb_true_iff in H. now apply negb_true_iff. }
    destruct Hstep as (Ht1 & Hp1 & Hn1).
    assert (Hrest : quiet (exec (dispatch ev) s) (run evs (exec (dispatch ev) s))).
    { apply IH; [congruence | exact Hevs |].
      rewrite Hp1. destruct Hclose as [H|H]; [now left|right].
      now apply andb_true_iff in H. }
    destruct Hrest as (Ht2 & Hp2 & Hn2).
    unfold quiet. repeat split; congruence.
Qed.

(** C1, as the code has it: [disconnect] forwards its arguments to the
    socket's disconnect, sets the status to 'disconnected', empties the
    queue and emits the deferred 'socketlogger:disconnected' notification;
    it makes no connect call, schedules no timer and leaves the pending
    timers as they are.  If no timer is pending when it is called, then
    after it, as long as [connect] is not called, the socket is never asked
    to connect, provided autoReconnect is off or the socket emits no close
    event.  With autoReconnect on, a close event after the manual disconnect
    schedules the reconnection as after any close: 5000 ms later the socket
    is asked to connect. *)
Theorem disconnect_schedules_no_reconnect (s : State) (args : list JsVal) :
  let s1 := exec (SocketLogger.disconnect args) s in
  SocketLogger.disconnect args s = (Ret tt, s1)
  /\ status s1 = "disconnected"
  /\ messageQueue s1 = []
  /\ timers s1 = timers s
  /\ effects s1 =
     effects s ++ [SocketDisconnect args;
                   TriggerDefer s_STR_EVENT_DISCONNECTED
                     (VObj (socketOptions (_params s)))]
  /\ (forall evs,
        timers s = [] ->
        no_explicit_connect evs = true ->
        autoReconnect (_params s) = false \/ no_close evs = true ->
        connect_calls (run evs s1) = connect_calls s1)
  /\ (timers s = [] ->
      autoReconnect (_params s) = true ->
      connect_calls (run [SocketClose; Elapse s_RECONNECT_INTERVAL] s1)
      = S (connect_calls s1)).
Proof.
  intro s1. subst s1. unfold exec. rewrite disconnect_state.
  cbn [snd status messageQueue timers effects].
  repeat (split; [reflexivity|]). split.
  - intros evs Hts Hc Hclose.
    apply (run_quiet evs); cbn [timers _params]; assumption.
  - intros Hts Hauto. cbn [run dispatch]. unfold exec.
    rewrite on_close_state. cbn [snd _params timers effects].
    rewrite Hts, Hauto, elapse_state.
    unfold connect_calls. cbn [snd effects timers app filter].
    change (due s_RECONNECT_INTERVAL
              (mkTimer s_RECONNECT_INTERVAL SocketConnectBound))
      with (5000 <=? 5000)%N.
    cbn [N.leb N.compare Pos.compare Pos.compare_cont List.length].
    rewrite connect_calls_app, !filter_app. simpl.
    rewrite !app_nil_r. lia.
Qed.

Lemma disconnect_schedules_no_reconnect_witness :
  timers sample_connected = []
  /\ connect_calls
       (run [SocketMessageIn (VObj [("msg", VStr "ping"); ("id", VNum 7)]);
             Elapse 5000; CallLog Warn [VStr "late"]; SocketOpen; Elapse 5000]
            (exec (SocketLogger.disconnect []) sample_connected))
     = 1%nat.
Proof.
  split; [reflexivity|].
  destruct (disconnect_schedules_no_reconnect sample_connected [])
    as (_ & _ & _ & _ & _ & H & _).
  rewrite H; [reflexivity | reflexivity | reflexivity | right; reflexivity].
Defined.

(** C1, as the spec has it, fails: a connected logger built with the
    defaults (autoReconnect on) is disconnected by hand, the socket then
    emits its close event, and 5000 ms later the socket is asked to
    connect, a second time. *)
Lemma close_after_disconnect_reconnects :
  no_explicit_connect [SocketClose; Elapse 5000] = true
  /\ connect_calls (exec (SocketLogger.disconnect []) sample_connected) = 1%nat
  /\ connect_calls
       (run [SocketClose; Elapse 5000]
            (exec (SocketLogger.disconnect []) sample_connected)) = 2%nat
  /\ ~ manual_disconnect_is_final.
Proof.
  repeat (split; [reflexivity|]).
  intro H.
  specialize (H sample_connected [] [SocketClose; Elapse 5000] eq_refl).
  vm_compute in H. discriminate H.
Qed.

(** ** The theorems at work on the sample logger *)

Lemma flush_fifo_witness :
  let a := SocketLogger.log_message "info" [VStr "a"] in
  let b := SocketLogger.log_message "warn" [VStr "b"] in
  let s := run [CallLog Info [VStr "a"]; CallLog Warn [VStr "b"]]
               sample_connected in
  status s = "connected"
  /\ messageQueue s = enqueue_all [a; b]
  /\ messageQueue_process s = (Ret tt, with_messageQueue [] (sent [a; b] s)).
Proof.
  intros a b s. split; [reflexivity|]. split; [reflexivity|].
  destruct (flush_fifo (fun _ => true) [a; b]) as (_ & _ & H & _).
  apply H; reflexivity.
Defined.

Lemma reconnect_after_fixed_interval_witness :
  let s' := exec SocketLogger.on_socket_close sample_connected in
  autoReconnect (_params sample_connected) = true
  /\ timers s' = [mkTimer 5000 SocketConnectBound]
  /\ connect_calls s' = 1%nat
  /\ connect_calls (exec (elapse 4999) s') = 1%nat
  /\ connect_calls (exec (elapse 5000) s') = 2%nat
  /\ timers (exec (elapse 5000) s') = [].
Proof.
  intro s'. split; [reflexivity|].
  destruct (reconnect_after_fixed_interval sample_connected eq_refl)
    as (_ & Hts & _ & _ & Hone).
  destruct (Hone eq_refl) as (Hbefore & Hat & Hgone).
  split; [exact Hts|]. split; [reflexivity|].
  split; [|split].
  - exact (Hbefore 4999%N eq_refl).
  - exact Hat.
  - exact Hgone.
Defined.

Lemma connected_ack_flushes_witness :
  let s := run [SocketOpen; CallLog Info [VStr "x"]] sample_logger in
  let message := VObj [("msg", VStr "connected")] in
  let s' := exec (SocketLogger.on_socket_message_in message) s in
  status s = "disconnected"
  /\ read_prop message "msg" = inr (VStr "connected")
  /\ status s' = "connected"
  /\ messageQueue s' = []
  /\ effects s' =
     effects s ++ map SocketSend (messageQueue s)
       ++ [TriggerDefer s_STR_EVENT_CONNECTED
             (VObj (socketOptions (_params s)))].
Proof.
  intros s message s'. split; [reflexivity|]. split; [reflexivity|].
  exact (proj2 (connected_ack_flushes s message eq_refl eq_refl)).
Defined.

Lemma ping_answered_with_pong_witness :
  let message := VObj [("msg", VStr "ping"); ("id", VStr "abc")] in
  let pong := VObj [("msg", VStr "pong"); ("id", VStr "abc")] in
  status sample_connected = "connected"
  /\ SocketLogger.on_socket_message_in message sample_connected
     = (Ret tt, emit (SocketSend pong) sample_connected).
Proof.
  intros message pong. split; [reflexivity|].
  exact (proj1 (ping_answered_with_pong sample_connected message
                  eq_refl eq_refl eq_refl)).
Defined.

Lemma opened_sends_handshake_witness :
  status sample_logger = "disconnected"
  /\ status (exec SocketLogger.on_socket_open sample_logger) = "disconnected".
Proof.
  split; [reflexivity|].
  destruct (opened_sends_handshake sample_logger) as (_ & _ & _ & _ & _ & _ & H).
  apply H. reflexivity.
Defined.

Lemma unknown_message_ignored_witness :
  let message := VObj [("msg", VStr "result"); ("id", VStr "1")] in
  read_prop message "msg" = inr (VStr "result")
  /\ SocketLogger.on_socket_message_in message sample_connected
     = (Ret tt, sample_connected).
Proof.
  intro message. split; [reflexivity|].
  exact (unknown_message_ignored sample_connected message eq_refl
           eq_refl eq_refl).
Defined.

Lemma ping_reply_unguarded_witness :
  let message := VObj [("msg", VStr "ping"); ("id", VStr "abc")] in
  let s' := exec (SocketLogger.on_socket_message_in message) sample_logger in
  status sample_logger = "disconnected"
  /\ effects s' =
     effects sample_logger
       ++ [SocketSend (VObj [("msg", VStr "pong"); ("id", VStr "abc")])]
  /\ status s' = "disconnected".
Proof.
  intros message s'. split; [reflexivity|].
  exact (proj2 (ping_reply_unguarded sample_logger message eq_refl eq_refl)).
Defined.

(** * Further properties of the class *)

(** ** Options and the constructor *)

Lemma lookup_set_same (k : string) (v : JsVal) (fields : list (string * JsVal)) :
  lookup_field k (set_field k v fields) = v.
Proof.
  induction fields as [|[k' v'] rest IH]; simpl.
  - now rewrite String.eqb_refl.
  - destruct (String.eqb k' k) eqn:E; simpl.
    + now rewrite String.eqb_refl.
    + now rewrite E.
Qed.

Lemma lookup_set_other (k k0 : string) (v : JsVal)
    (fields : list (string * JsVal)) :
  k0 <> k ->
  lookup_field k0 (set_field k v fields) = lookup_field k0 fields.
Proof.
  intro Hne. induction fields as [|[k' v'] rest IH]; simpl.
  - destruct (String.eqb_spec k k0); [congruence | reflexivity].
  - destruct (String.eqb_spec k' k) as [E|E]; simpl.
    + subst k'. destruct (String.eqb_spec k k0); [congruence | reflexivity].
    + destruct (String.eqb k' k0); [reflexivity | exact IH].
Qed.

Lemma lookup_absent (k : string) (fields : list (string * JsVal)) :
  (forall v, ~ In (k, v) fields) ->
  lookup_field k fields = VUndefined.
Proof.
  induction fields as [|[k' v'] rest IH]; intro Habs; simpl; [reflexivity|].
  destruct (String.eqb_spec k' k) as [E|E].
  - subst k'. exfalso. apply (Habs v'). now left.
  - apply IH. intros v Hin. apply (Habs v). now right.
Qed.

(** X1: a new logger is disconnected, with an empty queue and no timer; it
    keeps the host it was given, and the getters answer with it and with
    the platform's options, in which [protocol] is 'socketlogger' whatever
    the platform had put there and every other key is as the platform gave
    it, for the [ssl] flag and serializer given or else [false] and
    [JSON].  The socket is asked to connect once, unless autoConnect was
    given as [false]; autoReconnect is on unless given as [false]. *)
Theorem constructor_initial_state (Ser : Type)
    (setSocketOptions : string -> bool -> Ser -> list (string * JsVal))
    (JSON : Ser) (h : string) (ssl : option bool) (serializer : option Ser)
    (connect reconnect : option bool) :
  let s := SocketLogger.constructor setSocketOptions JSON h ssl serializer
             connect reconnect in
  let given := setSocketOptions h (SocketLogger.or_default false ssl)
                 (SocketLogger.or_default JSON serializer) in
  status s = "disconnected"
  /\ messageQueue s = []
  /\ timers s = []
  /\ get_host s = (Ret h, s)
  /\ get_socketOptions s = (Ret (VObj (socketOptions (_params s))), s)
  /\ option_of "protocol" s = VStr "socketlogger"
  /\ (forall k, k <> "protocol" -> option_of k s = lookup_field k given)
  /\ effects s = (if connects_on_construction connect then [SocketConnect] else [])
  /\ autoReconnect (_params s) = SocketLogger.or_default true reconnect.
Proof.
  intros s given. subst s given.
  unfold SocketLogger.constructor, connects_on_construction, option_of,
    get_host, get_socketOptions, gets.
  destruct (SocketLogger.or_default true connect); cbn;
    repeat (split; [reflexivity|]);
    (split; [apply lookup_set_same|]);
    (split; [intros k Hk; now apply lookup_set_other | split; reflexivity]).
Qed.

(** ** Events, one at a time *)

Lemma run_app (evs1 evs2 : list Event) (s : State) :
  run (evs1 ++ evs2) s = run evs2 (run evs1 s).
Proof.
  revert s; induction evs1 as [|ev evs1 IH]; intro s; simpl; auto.
Qed.

(** Reading [id] cannot throw once reading [msg] has not. *)
Lemma read_id_after_msg (message msg : JsVal) :
  read_prop message "msg" = inr msg ->
  exists id, read_prop message "id" = inr id.
Proof.
  destruct message; simpl; intro H; try discriminate; eexists; reflexivity.
Qed.

(** The message callback either connects (and flushes), or answers a ping,
    or does nothing, or throws before doing anything. *)
Lemma message_in_cases (message : JsVal) (s : State) :
  let s' := exec (SocketLogger.on_socket_message_in message) s in
  (is_ack (SocketMessageIn message) = true
   /\ s' = mkState "connected" [] (_params s) (timers s)
             (effects s ++ map SocketSend (messageQueue s)
                ++ [TriggerDefer s_STR_EVENT_CONNECTED
                      (VObj (socketOptions (_params s)))]))
  \/ (is_ack (SocketMessageIn message) = false
      /\ (s' = s
          \/ exists id,
               s' = emit (SocketSend (VObj [("msg", VStr "pong"); ("id", id)])) s)).
Proof.
  intro s'. subst s'. unfold exec, is_ack.
  destruct (read_prop message "msg") as [e|msg] eqn:Hmsg.
  - right. rewrite (on_no_object s _ Hmsg). auto.
  - destruct (strict_eq_str msg "connected") eqn:Hc.
    + left. apply strict_eq_str_true in Hc. subst msg.
      rewrite (on_connected s _ Hmsg). auto.
    + right. split; [reflexivity|].
      destruct (strict_eq_str msg "ping") eqn:Hp.
      * apply strict_eq_str_true in Hp. subst msg.
        destruct (read_id_after_msg _ Hmsg) as [id Hid].
        rewrite (on_ping s _ Hmsg Hid). right. now exists id.
      * rewrite (on_other s _ Hmsg Hc Hp). now left.
Qed.

Lemma dispatch_params (ev : Event) (s : State) :
  _params (exec (dispatch ev) s) = _params s.
Proof.
  destruct ev; cbn [dispatch]; unfold exec.
  - reflexivity.
  - now rewrite disconnect_state.
  - now rewrite log_pushes.
  - reflexivity.
  - now rewrite on_close_state.
  - apply message_in_quiet.
  - now rewrite elapse_state.
Qed.

Lemma dispatch_status (ev : Event) (s : State) :
  status (exec (dispatch ev) s) = next_status (status s) ev.
Proof.
  unfold next_status.
  destruct ev; cbn [dispatch is_ack].
  - reflexivity.
  - unfold exec. now rewrite disconnect_state.
  - unfold exec. now rewrite log_pushes.
  - reflexivity.
  - unfold exec. now rewrite on_close_state.
  - destruct (message_in_cases message s) as [[Hack Hs]|[Hack [Hs|[id Hs]]]];
      cbn [is_ack] in Hack; rewrite Hack, Hs; reflexivity.
  - unfold exec. now rewrite elapse_state.
Qed.

Lemma run_params (evs : list Event) (s : State) :
  _params (run evs s) = _params s.
Proof.
  revert s; induction evs as [|ev evs IH]; intro s; [reflexivity|].
  cbn [run]. now rewrite IH, dispatch_params.
Qed.

Lemma run_status (evs : list Event) (s : State) :
  status (run evs s) = fold_left next_status evs (status s).
Proof.
  revert s; induction evs as [|ev evs IH]; intro s; [reflexivity|].
  cbn [run fold_left]. now rewrite IH, dispatch_status.
Qed.

(** ** Invariants of a history *)

(** X2: nothing that can happen to a logger changes its parameters: after
    any history of calls, socket events and passing time, the host, the
    socket options and the two flags are those of the constructor, and the
    getters answer as they did at first. *)
Theorem params_never_change (evs : list Event) (s : State) :
  _params (run evs s) = _params s
  /\ fst (get_host (run evs s)) = fst (get_host s)
  /\ fst (get_socketOptions (run evs s)) = fst (get_socketOptions s).
Proof.
  unfold get_host, get_socketOptions, gets. cbn [fst].
  rewrite run_params. auto.
Qed.

(** X3: the status after a history is what the two-state machine makes of
    the events, whatever the queue, the timers and the options: a
    'connected' message sets it to 'connected', a call of [disconnect] or a
    close of the socket to 'disconnected', and no other event (open,
    connect, ping, logging, time) touches it. *)
Theorem status_follows_events (evs : list Event) (s : State) :
  status (run evs s) = fold_left next_status evs (status s).
Proof. apply run_status. Qed.

Lemma fold_next_status_known (evs : list Event) (st : string) :
  st = "connected" \/ st = "disconnected" ->
  fold_left next_status evs st = "connected"
  \/ fold_left next_status evs st = "disconnected".
Proof.
  revert st; induction evs as [|ev evs IH]; intros st Hst; [exact Hst|].
  cbn [fold_left]. apply IH. unfold next_status.
  destruct (is_ack ev); [now left|]. destruct ev; auto.
Qed.

Lemma fold_next_status_no_ack (evs : list Event) :
  no_ack evs = true ->
  fold_left next_status evs "disconnected" = "disconnected".
Proof.
  induction evs as [|ev evs IH]; intro H; [reflexivity|].
  unfold no_ack in *. cbn [forallb] in H.
  apply andb_true_iff in H. destruct H as [Hev Hevs].
  apply negb_true_iff in Hev.
  cbn [fold_left]. unfold next_status at 2. rewrite Hev.
  destruct ev; now apply IH.
Qed.

(** X4: from the constructor on, the status is never anything but
    'connected' or 'disconnected'. *)
Theorem status_is_two_valued (Ser : Type)
    (setSocketOptions : string -> bool -> Ser -> list (string * JsVal))
    (JSON : Ser) (h : string) (ssl : option bool) (serializer : option Ser)
    (connect reconnect : option bool) (evs : list Event) :
  let s := run evs (SocketLogger.constructor setSocketOptions JSON h ssl
                      serializer connect reconnect) in
  status s = "connected" \/ status s = "disconnected".
Proof.
  intro s. subst s. rewrite run_status. apply fold_next_status_known.
  right. unfold SocketLogger.constructor.
  now destruct (SocketLogger.or_default true connect).
Qed.

(** X5: the handshake is needed: a disconnected logger stays disconnected
    through any history in which no 'connected' message arrives, whatever
    else happens (open events, calls of [connect], pings, logging, time). *)
Theorem no_ack_no_connection (evs : list Event) (s : State) :
  status s = "disconnected" ->
  no_ack evs = true ->
  status (run evs s) = "disconnected".
Proof.
  intros Hs Hevs. rewrite run_status, Hs.
  now apply fold_next_status_no_ack.
Qed.

Lemma no_ack_no_connection_witness :
  status sample_logger = "disconnected"
  /\ status (run [SocketOpen; CallConnect; CallLog Info [VStr "x"];
                  SocketMessageIn (VObj [("msg", VStr "ping")]);
                  Elapse 60000; SocketOpen] sample_logger)
     = "disconnected".
Proof.
  split; [reflexivity|].
  apply (no_ack_no_connection _ sample_logger); reflexivity.
Defined.

(** ** The message callback at its edges *)

(** X6: the message callback throws a TypeError exactly when the message
    is [undefined] or [null], and has then written nothing; for every
    other value (object, array, string, number, boolean) it returns
    normally. *)
Theorem message_callback_throws_on_no_object (message : JsVal) (s : State) :
  match message with
  | VUndefined | VNull =>
      SocketLogger.on_socket_message_in message s = (Throw TypeError, s)
  | _ => fst (SocketLogger.on_socket_message_in message s) = Ret tt
  end.
Proof.
  assert (Hobj : forall msg, read_prop message "msg" = inr msg ->
                 fst (SocketLogger.on_socket_message_in message s) = Ret tt).
  { intros msg Hmsg.
    destruct (strict_eq_str msg "connected") eqn:Hc.
    - apply strict_eq_str_true in Hc. subst msg.
      now rewrite (on_connected s _ Hmsg).
    - destruct (strict_eq_str msg "ping") eqn:Hp.
      + apply strict_eq_str_true in Hp. subst msg.
        destruct (read_id_after_msg _ Hmsg) as [id Hid].
        now rewrite (on_ping s _ Hmsg Hid).
      + now rewrite (on_other s _ Hmsg Hc Hp). }
  destruct message;
    try (apply on_no_object; reflexivity);
    eapply Hobj; reflexivity.
Qed.

(** X7: a ping that carries no [id] is answered all the same: the pong
    goes out with [id] undefined. *)
Theorem ping_without_id (fields : list (string * JsVal)) (s : State) :
  lookup_field "msg" fields = VStr "ping" ->
  (forall v, ~ In ("id", v) fields) ->
  SocketLogger.on_socket_message_in (VObj fields) s
  = (Ret tt,
     emit (SocketSend (VObj [("msg", VStr "pong"); ("id", VUndefined)])) s).
Proof.
  intros Hmsg Hid. apply on_ping; simpl.
  - now rewrite Hmsg.
  - now rewrite lookup_absent.
Qed.

Lemma ping_without_id_witness :
  SocketLogger.on_socket_message_in (VObj [("msg", VStr "ping")])
    sample_connected
  = (Ret tt,
     emit (SocketSend (VObj [("msg", VStr "pong"); ("id", VUndefined)]))
       sample_connected).
Proof.
  apply (ping_without_id [("msg", VStr "ping")] sample_connected).
  - reflexivity.
  - intros v [H|[]]. discriminate H.
Defined.

(** X8: the 'connected' message is handled whatever the status: at a
    logger that is connected already the status stays 'connected' and the
    'socketlogger:connected' notification is emitted once more, with the
    socket options. *)
Theorem ack_when_connected_notifies_again (s : State) (message : JsVal) :
  status s = "connected" ->
  read_prop message "msg" = inr (VStr "connected") ->
  let s' := exec (SocketLogger.on_socket_message_in message) s in
  status s' = "connected"
  /\ List.length (filter (is_notification s_STR_EVENT_CONNECTED) (effects s'))
     = S (List.length
            (filter (is_notification s_STR_EVENT_CONNECTED) (effects s)))
  /\ last (effects s') SocketConnect
     = TriggerDefer s_STR_EVENT_CONNECTED (VObj (socketOptions (_params s))).
Proof.
  intros _ Hmsg s'. subst s'. unfold exec.
  rewrite (on_connected s _ Hmsg). cbn [snd status effects].
  split; [reflexivity|]. split.
  - rewrite !filter_app, !length_app.
    assert (Hsends : forall q,
               filter (is_notification s_STR_EVENT_CONNECTED)
                      (map SocketSend q) = []).
    { induction q; simpl; auto. }
    rewrite Hsends. simpl. lia.
  - now rewrite app_assoc, last_last.
Qed.

Lemma ack_when_connected_notifies_again_witness :
  let s' := exec (SocketLogger.on_socket_message_in ack) sample_connected in
  status sample_connected = "connected"
  /\ status s' = "connected"
  /\ List.length (filter (is_notification s_STR_EVENT_CONNECTED) (effects s'))
     = 2%nat.
Proof.
  intro s'. split; [reflexivity|].
  destruct (ack_when_connected_notifies_again sample_connected ack
              eq_refl eq_refl) as (Hs & Hn & _).
  split; [exact Hs | exact Hn].
Defined.

(** ** Disconnections *)

(** X9: a manual disconnect followed by the close event of the socket
    emits the 'socketlogger:disconnected' notification twice, once from
    [disconnect] and once from the close callback, with the same options;
    nothing is sent in between. *)
Theorem disconnect_then_close_notifies_twice (s : State) (args : list JsVal) :
  let notification := TriggerDefer s_STR_EVENT_DISCONNECTED
                        (VObj (socketOptions (_params s))) in
  effects (run [CallDisconnect args; SocketClose] s)
  = effects s ++ [SocketDisconnect args; notification; notification].
Proof.
  cbn [run dispatch]. unfold exec.
  rewrite on_close_state, disconnect_state. cbn [snd _params effects].
  now rewrite <- app_assoc.
Qed.

(** X10: the records waiting in the queue when the socket closes are
    lost: when the connection is back and the server's 'connected' message
    arrives, nothing is sent; the only effects of the two events are the
    two notifications.  The same holds after a manual disconnect. *)
Theorem queued_records_lost_on_close (s : State) (args : list JsVal) :
  let options := VObj (socketOptions (_params s)) in
  effects (run [SocketClose; SocketMessageIn ack] s)
  = effects s ++ [TriggerDefer s_STR_EVENT_DISCONNECTED options;
                  TriggerDefer s_STR_EVENT_CONNECTED options]
  /\ effects (run [CallDisconnect args; SocketMessageIn ack] s)
     = effects s ++ [SocketDisconnect args;
                     TriggerDefer s_STR_EVENT_DISCONNECTED options;
                     TriggerDefer s_STR_EVENT_CONNECTED options].
Proof.
  cbn [run dispatch]. unfold exec. split.
  - rewrite (on_connected _ ack eq_refl), on_close_state.
    cbn [snd _params effects messageQueue map app].
    now rewrite <- app_assoc.
  - rewrite (on_connected _ ack eq_refl), disconnect_state.
    cbn [snd _params effects messageQueue map app].
    now rewrite <- app_assoc.
Qed.

(** ** Timers over a history *)

(** Apart from the passing of time, an event leaves the pending timers in
    place; only a close at a logger with autoReconnect adds one. *)
Lemma dispatch_timers (ev : Event) (s : State) :
  is_elapse ev = false ->
  timers (exec (dispatch ev) s)
  = timers s ++ (if is_close ev && autoReconnect (_params s)
                 then [reconnect_timer] else []).
Proof.
  intro Hev. destruct ev; cbn [dispatch is_close andb]; try discriminate.
  - cbn. now rewrite app_nil_r.
  - unfold exec. rewrite disconnect_state. cbn. now rewrite app_nil_r.
  - unfold exec. rewrite log_pushes. cbn. now rewrite app_nil_r.
  - cbn. now rewrite app_nil_r.
  - unfold exec. now rewrite on_close_state.
  - rewrite app_nil_r. apply message_in_quiet.
Qed.

Lemma closes_schedule (n : nat) (s : State) :
  autoReconnect (_params s) = true ->
  timers (run (repeat SocketClose n) s) = timers s ++ repeat reconnect_timer n
  /\ connect_calls (run (repeat SocketClose n) s) = connect_calls s.
Proof.
  revert s; induction n as [|n IH]; intros s Hauto.
  - simpl. now rewrite app_nil_r.
  - cbn [repeat run dispatch].
    destruct (IH (exec SocketLogger.on_socket_close s)) as [Hts Hn].
    { now rewrite (dispatch_params SocketClose). }
    rewrite Hts, Hn. unfold exec. rewrite on_close_state, Hauto.
    cbn [snd timers]. split.
    + now rewrite <- app_assoc.
    + unfold connect_calls. cbn [effects]. rewrite filter_app. simpl.
      now rewrite app_nil_r.
Qed.

Lemma all_reconnects_due (n : nat) :
  filter (due s_RECONNECT_INTERVAL) (repeat reconnect_timer n)
  = repeat reconnect_timer n
  /\ filter (pending s_RECONNECT_INTERVAL) (repeat reconnect_timer n) = [].
Proof.
  induction n as [|n [IHd IHp]]; [split; reflexivity|].
  cbn [repeat filter]. unfold pending.
  change (due s_RECONNECT_INTERVAL reconnect_timer) with true.
  cbn [negb]. now rewrite IHd.
Qed.

(** X11: reconnection timers pile up: [n] close events in a row at a
    logger with autoReconnect and no timer pending leave [n] timers
    pending, nothing merges or replaces them, and when 5000 ms have passed
    the socket is asked to connect [n] times. *)
Theorem reconnect_timers_accumulate (n : nat) (s : State) :
  autoReconnect (_params s) = true ->
  timers s = [] ->
  let s' := run (repeat SocketClose n) s in
  timers s' = repeat reconnect_timer n
  /\ connect_calls s' = connect_calls s
  /\ connect_calls (run [Elapse s_RECONNECT_INTERVAL] s')
     = (connect_calls s + n)%nat
  /\ timers (run [Elapse s_RECONNECT_INTERVAL] s') = [].
Proof.
  intros Hauto Hts s'. subst s'.
  destruct (closes_schedule n s Hauto) as [Htimers Hcalls].
  rewrite Hts in Htimers. cbn [app] in Htimers.
  destruct (all_reconnects_due n) as [Hdue Hpending].
  split; [exact Htimers|]. split; [exact Hcalls|].
  cbn [run dispatch]. unfold exec. rewrite elapse_state, Htimers.
  cbn [snd timers]. rewrite Hdue, Hpending, repeat_length. split.
  - unfold connect_calls at 1. cbn [effects].
    rewrite connect_calls_app. fold (connect_calls (run (repeat SocketClose n) s)).
    now rewrite Hcalls.
  - reflexivity.
Qed.

Lemma reconnect_timers_accumulate_witness :
  let s' := run (repeat SocketClose 3) sample_connected in
  autoReconnect (_params sample_connected) = true
  /\ timers sample_connected = []
  /\ timers s' = [reconnect_timer; reconnect_timer; reconnect_timer]
  /\ connect_calls (run [Elapse 5000] s') = 4%nat.
Proof.
  intro s'. split; [reflexivity|]. split; [reflexivity|].
  destruct (reconnect_timers_accumulate 3 sample_connected eq_refl eq_refl)
    as (Hts & _ & Hcalls & _).
  split; [exact Hts | exact Hcalls].
Defined.

(** X12: no method and no callback cancels a timer: through any history
    in which no time passes, the timers that were pending are still
    pending, in the same order, and all that was added are reconnection
    timers of 5000 ms.  In particular a call of [connect] or of
    [disconnect] leaves a scheduled reconnection in place. *)
Theorem timers_never_cancelled (evs : list Event) (s : State) :
  no_elapse evs = true ->
  exists n, timers (run evs s) = timers s ++ repeat reconnect_timer n.
Proof.
  revert s; induction evs as [|ev evs IH]; intros s Hevs.
  - exists 0%nat. simpl. now rewrite app_nil_r.
  - unfold no_elapse in Hevs. cbn [forallb] in Hevs.
    apply andb_true_iff in Hevs. destruct Hevs as [Hev Hevs].
    apply negb_true_iff in Hev.
    destruct (IH (exec (dispatch ev) s) Hevs) as [n Hn].
    cbn [run]. rewrite Hn, (dispatch_timers _ s Hev).
    destruct (is_close ev && autoReconnect (_params s)).
    + exists (S n). now rewrite <- app_assoc.
    + exists n. now rewrite app_nil_r.
Qed.

Lemma timers_never_cancelled_witness :
  exists n,
    timers (run [CallDisconnect []; CallConnect; SocketOpen;
                 SocketMessageIn ack]
                (run [SocketClose] sample_connected))
    = [reconnect_timer] ++ repeat reconnect_timer n.
Proof.
  apply (timers_never_cancelled
           [CallDisconnect []; CallConnect; SocketOpen; SocketMessageIn ack]
           (run [SocketClose] sample_connected)).
  reflexivity.
Defined.

(** X13: without autoReconnect the socket is asked to connect only when
    the owner says so: at a logger with autoReconnect off and no timer
    pending, the connect calls made through a history are exactly the calls
    of [connect] in it, one each and whatever the status; socket events,
    messages and time add none. *)
Theorem connects_only_on_request (evs : list Event) (s : State) :
  autoReconnect (_params s) = false ->
  timers s = [] ->
  connect_calls (run evs s) = (connect_calls s + explicit_connects evs)%nat
  /\ timers (run evs s) = [].
Proof.
  revert s; induction evs as [|ev evs IH]; intros s Hauto Hts.
  - unfold explicit_connects. simpl. split; [lia | exact Hts].
  - cbn [run]. unfold explicit_connects. cbn [filter].
    destruct (is_explicit_connect ev) eqn:Hev.
    + destruct ev; try discriminate. cbn [dispatch].
      destruct (IH (exec SocketLogger.connect s) Hauto Hts) as [Hn Ht].
      rewrite Hn, Ht. split; [|reflexivity].
      unfold connect_calls at 1, explicit_connects. cbn [exec snd
        SocketLogger.connect socket_connect modify emit effects].
      rewrite filter_app, length_app. fold (connect_calls s).
      cbn [filter is_connect List.length]. lia.
    + destruct (dispatch_quiet ev s Hts Hev (or_introl Hauto))
        as (Ht1 & Hp1 & Hn1).
      destruct (IH (exec (dispatch ev) s)) as [Hn Ht]; [congruence..|].
      rewrite Hn, Ht, Hn1. split; reflexivity.
Qed.

Lemma connects_only_on_request_witness :
  let s := SocketLogger.constructor sample_setSocketOptions tt
             "localhost:8001" None None (Some false) (Some false) in
  autoReconnect (_params s) = false
  /\ timers s = []
  /\ connect_calls
       (run [SocketClose; Elapse 5000; CallConnect; SocketOpen;
             SocketMessageIn ack; SocketClose; Elapse 60000; CallConnect] s)
     = 2%nat.
Proof.
  intro s. split; [reflexivity|]. split; [reflexivity|].
  exact (proj1 (connects_only_on_request
                  [SocketClose; Elapse 5000; CallConnect; SocketOpen;
                   SocketMessageIn ack; SocketClose; Elapse 60000; CallConnect]
                  s eq_refl eq_refl)).
Defined.

(** ** What goes out on the socket *)

Lemma log_records_are_client_messages (q : list JsVal) :
  forallb is_log_record q = true ->
  forallb sends_protocol_only (map SocketSend q) = true.
Proof.
  induction q as [|m q IH]; [reflexivity|].
  cbn [forallb map]. intro H. apply andb_true_iff in H. destruct H as [Hm Hq].
  rewrite (IH Hq), andb_true_r. cbn [sends_protocol_only].
  destruct m; try discriminate. cbn [is_client_message is_log_record] in *.
  rewrite Hm. now rewrite orb_true_r.
Qed.

Lemma connects_are_no_sends (n : nat) :
  forallb sends_protocol_only (repeat SocketConnect n) = true.
Proof. induction n; simpl; auto. Qed.

(** The queue holds log records only and only messages of the protocol
    have been sent: an invariant of every event. *)
Lemma dispatch_protocol (ev : Event) (s : State) :
  forallb is_log_record (messageQueue s) = true ->
  forallb sends_protocol_only (effects s) = true ->
  forallb is_log_record (messageQueue (exec (dispatch ev) s)) = true
  /\ forallb sends_protocol_only (effects (exec (dispatch ev) s)) = true.
Proof.
  intros Hq Hfx. destruct ev; cbn [dispatch].
  - cbn. rewrite forallb_app, Hfx. auto.
  - unfold exec. rewrite disconnect_state. cbn [snd messageQueue effects].
    rewrite forallb_app, Hfx. auto.
  - unfold exec. rewrite log_pushes.
    cbn [snd with_messageQueue messageQueue effects].
    rewrite forallb_app, Hq. auto.
  - cbn. rewrite forallb_app, Hfx. auto.
  - unfold exec. rewrite on_close_state. cbn [snd messageQueue effects].
    rewrite forallb_app, Hfx. auto.
  - destruct (message_in_cases message s) as [[_ Hs]|[_ [Hs|[id Hs]]]];
      rewrite Hs.
    + cbn [messageQueue effects].
      rewrite !forallb_app, Hfx, (log_records_are_client_messages _ Hq). auto.
    + auto.
    + cbn [emit messageQueue effects]. rewrite forallb_app, Hfx. auto.
  - unfold exec. rewrite elapse_state. cbn [snd messageQueue effects].
    rewrite forallb_app, Hfx, connects_are_no_sends. auto.
Qed.

(** X14: a logger never sends anything but the three messages of the
    client side of the protocol: from the constructor on and through any
    history, every message handed to [socket.send] is an object whose
    [msg] is 'connect', 'pong' or 'log', whatever arrives from the server
    and whatever is logged. *)
Theorem only_protocol_messages_sent (Ser : Type)
    (setSocketOptions : string -> bool -> Ser -> list (string * JsVal))
    (JSON : Ser) (h : string) (ssl : option bool) (serializer : option Ser)
    (connect reconnect : option bool) (evs : list Event) :
  let s := run evs (SocketLogger.constructor setSocketOptions JSON h ssl
                      serializer connect reconnect) in
  forallb sends_protocol_only (effects s) = true
  /\ forallb is_log_record (messageQueue s) = true.
Proof.
  intro s. subst s.
  set (s0 := SocketLogger.constructor setSocketOptions JSON h ssl serializer
               connect reconnect).
  assert (H0 : forallb is_log_record (messageQueue s0) = true
               /\ forallb sends_protocol_only (effects s0) = true).
  { unfold s0, SocketLogger.constructor.
    destruct (SocketLogger.or_default true connect); split; reflexivity. }
  clearbody s0. revert s0 H0.
  induction evs as [|ev evs IH]; intros s0 [Hq Hfx]; [now split|].
  cbn [run]. apply IH. now apply dispatch_protocol.
Qed.

(** ** Logging while disconnected *)

Lemma run_log_calls (calls : list LogCall) (s : State) :
  run (map call_event calls) s
  = with_messageQueue (messageQueue s ++ map record_of calls) s.
Proof.
  revert s; induction calls as [|c calls IH]; intro s.
  - simpl. rewrite app_nil_r. now destruct s.
  - cbn [map run call_event dispatch]. rewrite IH. unfold exec.
    rewrite log_pushes. cbn [snd with_messageQueue messageQueue status
      _params timers effects].
    unfold with_messageQueue, record_of. cbn. now rewrite <- app_assoc.
Qed.

(** X15: what is logged while the logger is disconnected waits, and goes
    out when the server's 'connected' message arrives: after the records
    that were queued before, one record per call, in the order of the
    calls, each with the name of its level and its arguments; then the
    'socketlogger:connected' notification.  The logging calls themselves
    send nothing. *)
Theorem logged_while_disconnected_sent_in_order
    (calls : list LogCall) (s : State) :
  status s = "disconnected" ->
  let logged := run (map call_event calls) s in
  let s' := run [SocketMessageIn ack] logged in
  effects logged = effects s
  /\ status logged = "disconnected"
  /\ effects s'
     = effects s
         ++ map SocketSend (messageQueue s ++ map record_of calls)
         ++ [TriggerDefer s_STR_EVENT_CONNECTED
               (VObj (socketOptions (_params s)))]
  /\ messageQueue s' = []
  /\ status s' = "connected".
Proof.
  intros Hs logged s'. subst s' logged. rewrite run_log_calls.
  cbn [run dispatch]. unfold exec. rewrite (on_connected _ ack eq_refl).
  cbn. auto.
Qed.

Lemma logged_while_disconnected_sent_in_order_witness :
  let s' := run [CallLog Warn [VStr "w"]; CallLog Trace [VNum 1; VNum 2];
                 SocketMessageIn ack]
                (run [SocketOpen] sample_logger) in
  status (run [SocketOpen] sample_logger) = "disconnected"
  /\ effects s'
     = [SocketConnect;
        SocketSend (VObj [("msg", VStr "connect")]);
        SocketSend (VObj [("msg", VStr "log"); ("type", VStr "warn");
                          ("data", VArr [VStr "w"])]);
        SocketSend (VObj [("msg", VStr "log"); ("type", VStr "trace");
                          ("data", VArr [VNum 1; VNum 2])]);
        TriggerDefer s_STR_EVENT_CONNECTED
          (VObj (socketOptions (_params sample_logger)))].
Proof.
  intro s'. split; [reflexivity|].
  destruct (logged_while_disconnected_sent_in_order
              [(Warn, [VStr "w"]); (Trace, [VNum 1; VNum 2])]
              (run [SocketOpen] sample_logger) eq_refl)
    as (_ & _ & H & _).
  exact H.
Defined.
